(** * strawberryfields.apps.points: RBF kernels and permanental point processes

    A shallow embedding of [src/strawberryfields/apps/points.py].

    A numpy array is a shape together with its row-major data.  Python
    exceptions are values of [exn]; a computation that can raise returns
    [result].

    [rbf_kernel] has two models.  In the first, array entries and the
    bandwidth are real numbers: it gives the kernel formula its exact
    meaning, and carries the symmetry of the kernel and the values of the
    docstring example.  In the second, module [F64], they are binary64
    floats with the roundings, overflow and underflow of the code, and
    [sigma ** 2] raises as CPython does; what the code guarantees for
    every input is proved there.

    [sample] calls a library that is not part of the repository.  Its
    routines are the fields of [csamples]; what [sample] itself does is
    proved for every such library, and what depends on the library is
    proved for the library as the specification describes it,
    [spec_csamples]. *)

From Stdlib Require Import String.
From Stdlib Require Import Reals List ZArith Lia Lra.
From Stdlib Require Floats.
Import ListNotations.

Local Open Scope R_scope.

(** ** Exceptions and fallible computations *)

Inductive exn : Type :=
| ValueError (msg : string)
| TypeError (msg : string)
| LinAlgError (msg : string)
| OtherError (msg : string)
| OverflowError (msg : string).

Definition result (A : Type) : Type := (exn + A)%type.

Definition ret {A : Type} (a : A) : result A := inr a.

Definition raise {A : Type} (e : exn) : result A := inl e.

Definition bind {A B : Type} (m : result A) (k : A -> result B) : result B :=
  match m with
  | inl e => inl e
  | inr a => k a
  end.

Notation "x <- m ;; k" := (bind m (fun x => k))
  (at level 61, m at next level, right associativity).

(** ** numpy arrays *)

Record ndarray (A : Type) : Type := mk_ndarray {
  shape : list nat;
  data : list A
}.

Arguments mk_ndarray {A} _ _.
Arguments shape {A} _.
Arguments data {A} _.

(** The invariant every numpy array satisfies: the buffer holds as many
    items as the shape announces. *)
Definition wf_ndarray {A : Type} (a : ndarray A) : Prop :=
  length (data a) = fold_right Nat.mul 1%nat (shape a).

(** [a[i]] for a 2-D array: the slice of the buffer that holds row [i]. *)
Definition row {A : Type} (ncols : nat) (buf : list A) (i : nat) : list A :=
  firstn ncols (skipn (i * ncols) buf).

(** [a[i][j]] for a 2-D array and non-negative indices; [None] stands for
    the [IndexError] of an index out of range (and for an array that is not
    2-D). *)
Definition get2 {A : Type} (a : ndarray A) (i j : nat) : option A :=
  match shape a with
  | [m; n] =>
      if ((i <? m)%nat && (j <? n)%nat)%bool
      then nth_error (data a) (i * n + j)
      else None
  | _ => None
  end.

(** Elementwise operations with a scalar operand (broadcasting) keep the
    shape and act on every item of the buffer. *)
Definition np_map {A B : Type} (f : A -> B) (a : ndarray A) : ndarray B :=
  mk_ndarray (shape a) (map f (data a)).

Definition np_neg (a : ndarray R) : ndarray R := np_map Ropp a.

Definition np_pow (a : ndarray R) (k : nat) : ndarray R :=
  np_map (fun x => x ^ k) a.

Definition np_div (a : ndarray R) (c : R) : ndarray R :=
  np_map (fun x => x / c) a.

Definition np_exp (a : ndarray R) : ndarray R := np_map exp a.

(** ** scipy.spatial.distance.cdist, Euclidean metric *)

(** [sum((u - v) ** 2)], accumulated left to right over the coordinates. *)
Definition sqdist (u v : list R) : R :=
  fold_left (fun acc p => acc + (fst p - snd p) ^ 2) (combine u v) 0.

Definition euclidean (u v : list R) : R := sqrt (sqdist u v).

(** The buffer of the [mA] x [mB] distance matrix, row after row. *)
Definition cdist_data (d mA mB : nat) (XA XB : list R) : list R :=
  flat_map
    (fun i => map (fun j => euclidean (row d XA i) (row d XB j)) (seq 0 mB))
    (seq 0 mA).

(** [cdist(XA, XB)] with the default metric.  scipy rejects arguments that
    are not 2-D and arguments whose numbers of columns differ. *)
Definition cdist (XA XB : ndarray R) : result (ndarray R) :=
  match shape XA, shape XB with
  | [mA; dA], [mB; dB] =>
      if (dA =? dB)%nat
      then ret (mk_ndarray [mA; mB] (cdist_data dA mA mB (data XA) (data XB)))
      else raise (ValueError
        "XA and XB must have the same number of columns (i.e. feature dimension.)"%string)
  | [_; _], _ => raise (ValueError "XB must be a 2-dimensional array."%string)
  | _, _ => raise (ValueError "XA must be a 2-dimensional array."%string)
  end.

(** ** rbf_kernel *)

(** [np.exp(-(cdist(R, R)) ** 2 / 2 / sigma ** 2)].  In Python [**] binds
    tighter than unary minus, which binds tighter than [/], and [/]
    associates to the left. *)
Definition rbf_kernel (Rc : ndarray R) (sigma : R) : result (ndarray R) :=
  D <- cdist Rc Rc ;;
  ret (np_exp (np_div (np_div (np_neg (np_pow D 2)) 2) (sigma ^ 2))).


(** The coordinates of point [i] of a coordinate matrix. *)
Definition point (Rc : ndarray R) (i : nat) : list R :=
  match shape Rc with
  | [_; d] => row d (data Rc) i
  | _ => []
  end.

(** ** Python values returned by [ndarray.tolist()] *)

#[warnings="-register-all"]
Inductive pyobj (A : Type) : Type :=
| PyScalar (a : A)
| PyList (items : list (pyobj A)).

Arguments PyScalar {A} _.
Arguments PyList {A} _.

(** Number of items an array of the given shape holds. *)
Definition size (shp : list nat) : nat := fold_right Nat.mul 1%nat shp.

(** Cut a buffer into [n] consecutive pieces of [len] items. *)
Fixpoint chunks {A : Type} (len n : nat) (buf : list A) : list (list A) :=
  match n with
  | O => []
  | S n' => firstn len buf :: chunks len n' (skipn len buf)
  end.

(** [tolist] by recursion on the shape: a 0-d array converts to its only
    item, an array of shape [n :: rest] to the list of its [n] sub-arrays.
    (The buffer of a 0-d array is never empty; that branch is unreachable
    for an array satisfying [wf_ndarray].) *)
Fixpoint tolist_shape {A : Type} (shp : list nat) (buf : list A) : pyobj A :=
  match shp with
  | [] =>
      match buf with
      | a :: _ => PyScalar a
      | [] => PyList []
      end
  | n :: rest => PyList (map (tolist_shape rest) (chunks (size rest) n buf))
  end.

Definition tolist {A : Type} (a : ndarray A) : pyobj A :=
  tolist_shape (shape a) (data a).

Fixpoint shape_eqb (s t : list nat) : bool :=
  match s, t with
  | [], [] => true
  | x :: s', y :: t' => ((x =? y)%nat && shape_eqb s' t')%bool
  | _, _ => false
  end.

(** [np.array(xs)] for a Python list [xs] of arrays: the arrays are stacked
    along a new first axis; the empty list gives the empty 1-D array; arrays
    of different shapes are rejected. *)
Definition np_array {A : Type} (xs : list (ndarray A)) : result (ndarray A) :=
  match xs with
  | [] => ret (mk_ndarray [O] [])
  | x :: rest =>
      if forallb (fun y => shape_eqb (shape y) (shape x)) rest
      then ret (mk_ndarray (length xs :: shape x) (flat_map data xs))
      else raise (ValueError
        "setting an array element with a sequence. The requested array has an inhomogeneous shape after 1 dimensions."%string)
  end.

(** ** The external sampling library

    [thewalrus.csamples] is not part of this repository.  Its two routines
    are parameters of the model: [rescale_adjacency_matrix_thermal] is a
    function of its arguments, [generate_thermal_samples] also reads and
    advances the state of the random generator.  Both may raise. *)

Record csamples : Type := mk_csamples {
  rng : Type;
  rescale_adjacency_matrix_thermal :
    ndarray R -> R -> result (ndarray R * ndarray R);
  generate_thermal_samples :
    ndarray R -> ndarray R -> Z -> rng -> result (list (ndarray Z)) * rng
}.

(** ** sample *)

(** [ls, O = rescale_adjacency_matrix_thermal(K, n_mean)] followed by
    [np.array(generate_thermal_samples(ls, O, num_samples=n_samples)).tolist()]. *)
Definition sample (W : csamples) (K : ndarray R) (n_mean : R) (n_samples : Z)
    (g : rng W) : result (pyobj Z) * rng W :=
  match rescale_adjacency_matrix_thermal W K n_mean with
  | inl e => (inl e, g)
  | inr (ls, Om) =>
      let (r, g') := generate_thermal_samples W ls Om n_samples g in
      (xs <- r ;; a <- np_array xs ;; ret (tolist a), g')
  end.

(** A deterministic instance of the library interface: the rescaling
    accepts square matrices only, the generator returns [n_samples] arrays
    filled with the current value of a counter that serves as its state. *)
Definition stub_rescale (K : ndarray R) (n_mean : R)
    : result (ndarray R * ndarray R) :=
  match shape K with
  | [n; m] =>
      if (n =? m)%nat
      then ret (mk_ndarray [n] (repeat 0 n), K)
      else raise (ValueError "Input matrix must be square"%string)
  | _ => raise (ValueError "Input matrix must be square"%string)
  end.

Definition stub_generate (ls Om : ndarray R) (n_samples : Z) (g : nat)
    : result (list (ndarray Z)) * nat :=
  let dim := length (data ls) in
  (ret (repeat (mk_ndarray [dim] (repeat (Z.of_nat g) dim)) (Z.to_nat n_samples)),
   S g).

Definition stub_csamples : csamples :=
  mk_csamples nat stub_rescale stub_generate.

Definition K_identity2 : ndarray R :=
  mk_ndarray [2%nat; 2%nat] [1; 0; 0; 1].

(** ** The sampling library as the specification describes it *)

(** Modelled from the spec: [thewalrus.csamples], with its routines
    [rescale_adjacency_matrix_thermal] and [generate_thermal_samples], is
    not part of the repository.  The specification describes a routine
    that rescales a kernel matrix, given a target mean count, into
    sampler-ready parameters, and one that generates a requested number of
    random integer-count samples from those parameters, a sample being a
    sequence of non-negative integers, one per point of the kernel.  The
    numbers the library computes and the inputs it rejects are not
    described; they are the fields of [walrus_numerics]. *)
Record walrus_numerics : Type := mk_walrus_numerics {
  rescale_error : ndarray R -> R -> option exn;
  rescaled_parameter : ndarray R -> R -> nat -> R;
  generate_error : ndarray R -> ndarray R -> Z -> option exn
}.

(** Modelled from the spec: the random generator, as the sequence of
    counts it will produce and the number of counts already drawn. *)
Record random_source : Type := mk_random_source {
  next_counts : nat -> nat;
  drawn : nat
}.

(** Modelled from the spec: one sample, an integer count for each of the
    [dim] points. *)
Definition draw_sample (dim : nat) (g : random_source)
    : ndarray Z * random_source :=
  (mk_ndarray [dim]
     (map (fun k => Z.of_nat (next_counts g (drawn g + k))) (seq 0 dim)),
   mk_random_source (next_counts g) (drawn g + dim)).

(** Modelled from the spec: [n] samples drawn one after the other. *)
Fixpoint draw_samples (dim n : nat) (g : random_source)
    : list (ndarray Z) * random_source :=
  match n with
  | O => ([], g)
  | S n' =>
      let (x, g1) := draw_sample dim g in
      let (xs, g2) := draw_samples dim n' g1 in
      (x :: xs, g2)
  end.

(** Modelled from the spec: the rescaling routine.  It returns one
    parameter per point of a square kernel, and a matrix of the kernel's
    size. *)
Definition spec_rescale (w : walrus_numerics) (K : ndarray R) (n_mean : R)
    : result (ndarray R * ndarray R) :=
  match rescale_error w K n_mean with
  | Some e => raise e
  | None =>
      match shape K with
      | [n; m] =>
          if (n =? m)%nat
          then ret (mk_ndarray [n] (map (rescaled_parameter w K n_mean) (seq 0 n)),
                    K)
          else raise (ValueError "Input matrix must be square"%string)
      | _ => raise (ValueError "Input matrix must be square"%string)
      end
  end.

(** Modelled from the spec: the generator.  It produces the requested
    number of samples, as a loop over [range(num_samples)] does: none when
    the requested number is not positive. *)
Definition spec_generate (w : walrus_numerics) (ls Om : ndarray R)
    (n_samples : Z) (g : random_source)
    : result (list (ndarray Z)) * random_source :=
  match generate_error w ls Om n_samples with
  | Some e => (raise e, g)
  | None =>
      let (xs, g') := draw_samples (length (data ls)) (Z.to_nat n_samples) g in
      (ret xs, g')
  end.

Definition spec_csamples (w : walrus_numerics) : csamples :=
  mk_csamples random_source (spec_rescale w) (spec_generate w).

(** Numerics that reject nothing, and a source of counts 0, 1, 2, 0, ... *)
Definition numerics_accepting : walrus_numerics :=
  mk_walrus_numerics (fun _ _ => None) (fun _ _ _ => 0) (fun _ _ _ => None).

Definition source_cycle : random_source :=
  mk_random_source (fun k => Nat.modulo k 3) 0.

(** ** Fixed-point enclosures of [exp]

    Integers stand for multiples of [1 / fx_scale]; squaring rounds down
    for lower bounds and up for upper bounds, so [j] squarings of an
    enclosure of [exp t] enclose [exp (2 ^ j * t)]. *)







(** ** The example of the docstring *)

Definition R_example : ndarray R :=
  mk_ndarray [4%nat; 2%nat] [0; 1; 1; 0; 0; 0; 1; 1].

(** * The float64 model

    The same code with the arithmetic numpy and CPython perform: array
    entries and the bandwidth are IEEE 754 binary64 numbers (Rocq's
    primitive floats), every operation rounds, and [sigma ** 2] on a
    Python float can raise.  The one operation without a bit-exact
    specification, [np.exp] on a single float64, is a parameter. *)

Module F64.
Import PrimFloat SpecFloat.
Local Open Scope float_scope.

(** scipy's C loop for the squared Euclidean distance:
    [s = 0.0; for each k: d = u[k] - v[k]; s += d * d]. *)
Definition sqdist (u v : list float) : float :=
  fold_left (fun acc p => acc + (fst p - snd p) * (fst p - snd p)) (combine u v) 0.

Definition euclidean (u v : list float) : float := sqrt (sqdist u v).

Definition cdist_data (d mA mB : nat) (XA XB : list float) : list float :=
  flat_map
    (fun i => map (fun j => euclidean (row d XA i) (row d XB j)) (seq 0 mB))
    (seq 0 mA).

(** [cdist(XA, XB)], with the checks scipy makes in that order. *)
Definition cdist (XA XB : ndarray float) : result (ndarray float) :=
  match shape XA, shape XB with
  | [mA; dA], [mB; dB] =>
      if (dA =? dB)%nat
      then ret (mk_ndarray [mA; mB] (cdist_data dA mA mB (data XA) (data XB)))
      else raise (ValueError
        "XA and XB must have the same number of columns (i.e. feature dimension.)"%string)
  | [_; _], _ => raise (ValueError "XB must be a 2-dimensional array."%string)
  | _, _ => raise (ValueError "XA must be a 2-dimensional array."%string)
  end.

(** [x ** 2] for a Python float [x]: the square, rounded; CPython raises
    [OverflowError] when the power of a finite base is infinite, and
    returns infinity for an infinite base and nan for nan.  Underflow to
    zero is silent. *)
Definition float_pow2 (x : float) : result float :=
  let y := x * x in
  if (is_infinity y && negb (is_infinity x))%bool
  then raise (OverflowError "(34, 'Numerical result out of range')"%string)
  else ret y.

(** The argument of [np.exp] in [rbf_kernel]:
    [-(cdist(R, R)) ** 2 / 2 / sigma ** 2], the operands evaluated from
    left to right, so that [cdist] runs before [sigma ** 2].  On an array,
    [** 2] is the elementwise square [x * x]. *)
Definition rbf_exponent (Rc : ndarray float) (sigma : float)
    : result (ndarray float) :=
  D <- cdist Rc Rc ;;
  s2 <- float_pow2 sigma ;;
  ret (np_map (fun x => x / s2)
         (np_map (fun x => x / 2) (np_map opp (np_map (fun x => x * x) D)))).

(** [rbf_kernel], for [np_exp1] the function [np.exp] computes on each
    item. *)
Definition rbf_kernel (np_exp1 : float -> float) (Rc : ndarray float)
    (sigma : float) : result (ndarray float) :=
  E <- rbf_exponent Rc sigma ;;
  ret (np_map np_exp1 E).

(** The sign of a float that is not nan, and the floats that are neither
    nan nor infinite, read on the specification of binary64. *)
Definition has_sign (s : bool) (x : spec_float) : bool :=
  match x with
  | S754_zero t | S754_infinity t | S754_finite t _ _ => Bool.eqb t s
  | S754_nan => false
  end.

Definition sf_finite (x : spec_float) : bool :=
  match x with
  | S754_zero _ | S754_finite _ _ _ => true
  | _ => false
  end.

(** What [rbf_kernel] computes from one distance [d], given the value [s2]
    of [sigma ** 2]. *)
Definition exponent (s2 d : float) : float := - (d * d) / 2 / s2.

Definition point (Rc : ndarray float) (i : nat) : list float :=
  match shape Rc with
  | [_; d] => row d (data Rc) i
  | _ => []
  end.

(** A step function standing in for [np.exp] where a concrete function is
    needed: it has the values of the exponential at zero, at nan and in the
    underflow range, and stays within the bounds of the exponential
    elsewhere. *)
Definition step_exp (x : float) : float :=
  if x <? -746 then 0
  else if x <? 0 then 0.5
  else if x =? 0 then 1
  else if 0 <? x then 2
  else nan.

(** The docstring's points, two points a hundred units apart, and a
    bandwidth whose square is not a float64. *)
Definition R_example : ndarray float :=
  mk_ndarray [4%nat; 2%nat] [0; 1; 1; 0; 0; 0; 1; 1].

Definition R_far : ndarray float := mk_ndarray [2%nat; 1%nat] [0; 100].

Definition R_empty : ndarray float := mk_ndarray [0%nat; 3%nat] [].

Definition sigma_huge : float := 0x1p+600.

Definition sigma_tiny : float := 0x1p-600.

End F64.

(** * Properties of [rbf_kernel] *)

Section Grid.
Context {A : Type}.

(** Reading item [i * n + j] of a buffer laid out as [m] rows of [n]. *)
Lemma nth_error_grid (f : nat -> nat -> A) (n m s i j : nat) :
  (i < m)%nat -> (j < n)%nat ->
  nth_error (flat_map (fun a => map (f a) (seq 0 n)) (seq s m)) (i * n + j)
  = Some (f (s + i)%nat j).
Proof.
  revert s i.
  induction m as [|m IH]; intros s i Hi Hj; [lia|].
  cbn [seq flat_map].
  destruct i as [|i].
  - rewrite nth_error_app1 by (rewrite length_map, length_seq; lia).
    cbn [Nat.mul Nat.add].
    rewrite nth_error_map, nth_error_seq.
    apply Nat.ltb_lt in Hj. rewrite Hj. cbn.
    now rewrite Nat.add_0_r.
  - rewrite nth_error_app2 by (rewrite length_map, length_seq; lia).
    rewrite length_map, length_seq.
    replace (S i * n + j - n)%nat with (i * n + j)%nat by lia.
    rewrite IH by lia.
    f_equal. f_equal. lia.
Qed.

Lemma length_grid (f : nat -> nat -> A) (n m s : nat) :
  length (flat_map (fun a => map (f a) (seq 0 n)) (seq s m)) = (m * n)%nat.
Proof.
  revert s. induction m as [|m IH]; intros s; cbn [seq flat_map]; [reflexivity|].
  rewrite length_app, length_map, length_seq, IH. reflexivity.
Qed.
End Grid.



(** ** The squared distance *)









(** ** The scalar kernel *)

Lemma get2_Some_inv {A : Type} (buf : list A) (m n i j : nat) (x : A) :
  get2 (mk_ndarray [m; n] buf) i j = Some x -> (i < m)%nat /\ (j < n)%nat.
Proof.
  unfold get2. cbn [shape].
  destruct (Nat.ltb_spec i m); destruct (Nat.ltb_spec j n); cbn [andb];
    intros Hx; try discriminate; split; assumption.
Qed.

(** ** The claims about [rbf_kernel], in exact arithmetic *)



(** ** Enclosing [exp] by fixed-point squaring *)















(** * Properties of [sample] *)

(** ** Stacking arrays and converting back to lists *)

Section Stack.
Context {A : Type}.

Lemma firstn_length_app (l r : list A) : firstn (length l) (l ++ r) = l.
Proof. induction l as [|a l IH]; cbn; [reflexivity | now rewrite IH]. Qed.

Lemma skipn_length_app (l r : list A) : skipn (length l) (l ++ r) = r.
Proof. induction l as [|a l IH]; cbn; [reflexivity | exact IH]. Qed.

Lemma chunks_flat_map (m : nat) (xs : list (ndarray A)) :
  Forall (fun x => length (data x) = m) xs ->
  chunks m (length xs) (flat_map data xs) = map data xs.
Proof.
  induction 1 as [|x xs Hx _ IH]; [reflexivity|].
  cbn [length flat_map chunks map]. subst m.
  now rewrite firstn_length_app, skipn_length_app, IH.
Qed.

Lemma tolist_shape_items (c : list A) :
  map (tolist_shape []) (chunks 1 (length c) c) = map PyScalar c.
Proof.
  induction c as [|a c IH]; [reflexivity|].
  cbn [length chunks map firstn skipn]. rewrite IH. reflexivity.
Qed.

Lemma tolist_shape_cons (n : nat) (rest : list nat) (buf : list A) :
  tolist_shape (n :: rest) buf
  = PyList (map (tolist_shape rest) (chunks (size rest) n buf)).
Proof. reflexivity. Qed.

Lemma tolist_shape_1d (n : nat) (c : list A) :
  length c = n -> tolist_shape [n] c = PyList (map PyScalar c).
Proof.
  intros <-. rewrite tolist_shape_cons. cbn [size fold_right].
  now rewrite tolist_shape_items.
Qed.

Lemma shape_eqb_refl (s : list nat) : shape_eqb s s = true.
Proof.
  induction s as [|x s IH]; [reflexivity|].
  cbn [shape_eqb]. now rewrite Nat.eqb_refl, IH.
Qed.

Lemma np_array_uniform (s : list nat) (xs : list (ndarray A)) :
  Forall (fun x => shape x = s) xs ->
  np_array xs
  = inr (match xs with
         | [] => mk_ndarray [O] []
         | _ :: _ => mk_ndarray (length xs :: s) (flat_map data xs)
         end).
Proof.
  intros HF. destruct xs as [|x rest]; [reflexivity|].
  inversion HF as [|? ? Hx Hrest]; subst. unfold np_array.
  replace (forallb (fun y => shape_eqb (shape y) (shape x)) rest) with true.
  - reflexivity.
  - symmetry. apply forallb_forall. intros y Hy.
    rewrite Forall_forall in Hrest. rewrite (Hrest y Hy).
    apply shape_eqb_refl.
Qed.

(** What [np.array(xs).tolist()] is for a list of 1-D arrays of [n] items. *)
Lemma tolist_np_array (n : nat) (xs : list (ndarray A)) :
  Forall (fun x => shape x = [n] /\ wf_ndarray x) xs ->
  (a <- np_array xs ;; ret (tolist a))
  = inr (PyList (map (fun x => PyList (map PyScalar (data x))) xs)).
Proof.
  intros HF.
  assert (HS : Forall (fun x => shape x = [n]) xs)
    by (eapply Forall_impl; [|exact HF]; now intros x [? ?]).
  assert (HL : Forall (fun x => length (data x) = n) xs).
  { eapply Forall_impl; [|exact HF]. intros x [Hs Hw].
    unfold wf_ndarray in Hw. rewrite Hs in Hw. cbn in Hw. lia. }
  rewrite (np_array_uniform _ _ HS). cbn [bind ret].
  destruct xs as [|x rest]; [reflexivity|].
  unfold tolist, ret. cbn [shape data]. rewrite tolist_shape_cons.
  replace (size [n]) with n by (cbn; lia).
  rewrite (chunks_flat_map n (x :: rest) HL), map_map.
  do 2 f_equal. apply map_ext_in. intros y Hy.
  rewrite Forall_forall in HL. apply tolist_shape_1d, HL, Hy.
Qed.
End Stack.

(** ** The claims about [sample], for every library

    The generator is only assumed to return what the library documents:
    1-D arrays of counts, one count per parameter. *)

Section SampleContract.
Variable W : csamples.

Hypothesis generate_shape :
  forall (ls Om : ndarray R) (n : Z) (g g' : rng W) (xs : list (ndarray Z)),
    generate_thermal_samples W ls Om n g = (inr xs, g') ->
    Forall (fun s => shape s = [length (data ls)] /\ wf_ndarray s) xs.

(** A successful call of [sample] returns the arrays of the generator,
    each converted to a list of scalars. *)
Lemma sample_inr (K : ndarray R) (n_mean : R) (n : Z) (g g' : rng W)
    (b : pyobj Z) :
  sample W K n_mean n g = (inr b, g') ->
  exists ls Om xs,
    rescale_adjacency_matrix_thermal W K n_mean = inr (ls, Om) /\
    generate_thermal_samples W ls Om n g = (inr xs, g') /\
    b = PyList (map (fun x => PyList (map PyScalar (data x))) xs).
Proof.
  unfold sample. intros H.
  destruct (rescale_adjacency_matrix_thermal W K n_mean) as [e|[ls Om]] eqn:HR;
    [discriminate|].
  destruct (generate_thermal_samples W ls Om n g) as [r g1] eqn:HG.
  destruct r as [e|xs]; [discriminate|].
  cbn [bind] in H.
  rewrite (tolist_np_array _ _ (generate_shape _ _ _ _ _ _ HG)) in H.
  injection H as <- <-.
  exists ls, Om, xs. repeat split; assumption.
Qed.

(** C8: [sample] validates nothing itself.  An error of the rescaling
    routine, or of the generator, is the error of [sample], unchanged;
    when neither raises, [sample] returns a batch. *)
Theorem sample_propagates (K : ndarray R) (n_mean : R) (n : Z) (g : rng W) :
  match rescale_adjacency_matrix_thermal W K n_mean with
  | inl e => sample W K n_mean n g = (inl e, g)
  | inr (ls, Om) =>
      match generate_thermal_samples W ls Om n g with
      | (inl e, g') => sample W K n_mean n g = (inl e, g')
      | (inr xs, g') => exists b, sample W K n_mean n g = (inr b, g')
      end
  end.
Proof.
  unfold sample.
  destruct (rescale_adjacency_matrix_thermal W K n_mean) as [e|[ls Om]];
    [reflexivity|].
  destruct (generate_thermal_samples W ls Om n g) as [r g1] eqn:HG.
  destruct r as [e|xs]; [reflexivity|].
  cbn [bind].
  rewrite (tolist_np_array _ _ (generate_shape _ _ _ _ _ _ HG)).
  eexists. reflexivity.
Qed.
End SampleContract.

(** ** The contract is satisfiable: the deterministic instance *)

Lemma stub_generate_count (ls Om : ndarray R) (n : Z) (g g' : rng stub_csamples)
    (xs : list (ndarray Z)) :
  generate_thermal_samples stub_csamples ls Om n g = (inr xs, g') ->
  (0 <= n)%Z -> Z.of_nat (length xs) = n.
Proof.
  cbn [generate_thermal_samples stub_csamples]. unfold stub_generate, ret.
  intros [= <- _] Hn. rewrite repeat_length. lia.
Qed.

Lemma stub_generate_shape (ls Om : ndarray R) (n : Z) (g g' : rng stub_csamples)
    (xs : list (ndarray Z)) :
  generate_thermal_samples stub_csamples ls Om n g = (inr xs, g') ->
  Forall (fun s => shape s = [length (data ls)] /\ wf_ndarray s) xs.
Proof.
  cbn [generate_thermal_samples stub_csamples]. unfold stub_generate, ret.
  intros [= <- _]. apply Forall_forall. intros s Hs.
  apply repeat_spec in Hs. subst s. split; [reflexivity|].
  unfold wf_ndarray. cbn [data shape fold_right]. rewrite repeat_length. lia.
Qed.

Lemma sample_propagates_witness :
  (exists b, sample stub_csamples K_identity2 1 3 5%nat = (inr b, 6%nat)) /\
  sample stub_csamples (mk_ndarray [2%nat; 3%nat] [1; 0; 0; 0; 1; 0]) 1 3 5%nat
  = (inl (ValueError "Input matrix must be square"%string), 5%nat).
Proof.
  split.
  - exact (sample_propagates stub_csamples stub_generate_shape
             K_identity2 1 3 5%nat).
  - exact (sample_propagates stub_csamples stub_generate_shape
             (mk_ndarray [2%nat; 3%nat] [1; 0; 0; 0; 1; 0]) 1 3 5%nat).
Defined.

(** * Further properties of [sample] *)

Section SampleFlow.
Variable W : csamples.

Hypothesis generate_count :
  forall (ls Om : ndarray R) (n : Z) (g g' : rng W) (xs : list (ndarray Z)),
    generate_thermal_samples W ls Om n g = (inr xs, g') ->
    (0 <= n)%Z -> Z.of_nat (length xs) = n.

Hypothesis generate_shape :
  forall (ls Om : ndarray R) (n : Z) (g g' : rng W) (xs : list (ndarray Z)),
    generate_thermal_samples W ls Om n g = (inr xs, g') ->
    Forall (fun s => shape s = [length (data ls)] /\ wf_ndarray s) xs.

(** [sample] hands the generator the parameters that the rescaling
    returned, the requested count and the current generator state, once;
    it returns the generator's arrays in their order, each as the list of
    its counts, and leaves the generator in the state that call produced. *)
Theorem sample_returns_generator_output (K : ndarray R) (n_mean : R) (n : Z)
    (g g' : rng W) (ls Om : ndarray R) (xs : list (ndarray Z)) :
  rescale_adjacency_matrix_thermal W K n_mean = inr (ls, Om) ->
  generate_thermal_samples W ls Om n g = (inr xs, g') ->
  sample W K n_mean n g
  = (inr (PyList (map (fun x => PyList (map PyScalar (data x))) xs)), g').
Proof.
  intros HR HG. unfold sample. rewrite HR, HG. cbn [bind].
  now rewrite (tolist_np_array _ _ (generate_shape _ _ _ _ _ _ HG)).
Qed.

(** Asking for no samples gives the empty list. *)
Theorem sample_zero_samples (K : ndarray R) (n_mean : R) (g g' : rng W)
    (b : pyobj Z) :
  sample W K n_mean 0 g = (inr b, g') -> b = PyList [].
Proof.
  intros H.
  destruct (sample_inr W generate_shape _ _ _ _ _ _ H)
    as (ls & Om & xs & HR & HG & ->).
  pose proof (generate_count _ _ _ _ _ _ HG (Z.le_refl 0)) as Hlen.
  destruct xs; [reflexivity | cbn in Hlen; lia].
Qed.
End SampleFlow.

Lemma sample_returns_generator_output_witness :
  sample stub_csamples K_identity2 1 2 7%nat
  = (inr (PyList (map (fun x => PyList (map PyScalar (data x)))
                    [mk_ndarray [2%nat] [7%Z; 7%Z];
                     mk_ndarray [2%nat] [7%Z; 7%Z]])), 8%nat).
Proof.
  apply (sample_returns_generator_output stub_csamples stub_generate_shape
           K_identity2 1 2 7%nat 8%nat
           (mk_ndarray [2%nat] [0; 0]) K_identity2);
    reflexivity.
Defined.

Lemma sample_zero_samples_witness :
  @PyList Z [] = PyList [].
Proof.
  apply (sample_zero_samples stub_csamples stub_generate_count stub_generate_shape
           K_identity2 1 7%nat 8%nat (PyList [])).
  reflexivity.
Defined.


(** * [sample] on the library as the specification describes it *)

Lemma draw_samples_spec (dim n : nat) : forall (g g' : random_source)
    (xs : list (ndarray Z)),
  draw_samples dim n g = (xs, g') ->
  length xs = n /\
  Forall (fun s => shape s = [dim] /\ wf_ndarray s /\
                   Forall (fun c => (0 <= c)%Z) (data s)) xs.
Proof.
  induction n as [|n IH]; intros g g' xs H; cbn [draw_samples] in H.
  - injection H as <- <-. split; [reflexivity | constructor].
  - destruct (draw_sample dim g) as [x g1] eqn:Hx.
    destruct (draw_samples dim n g1) as [ys g2] eqn:Hys.
    injection H as <- <-.
    destruct (IH _ _ _ Hys) as [Hlen HF].
    split; [cbn; now rewrite Hlen|].
    constructor; [|exact HF].
    unfold draw_sample in Hx. injection Hx as <- _.
    cbn [shape data]. split; [reflexivity|]. split.
    + unfold wf_ndarray. cbn [shape data fold_right].
      rewrite length_map, length_seq. lia.
    + apply Forall_forall. intros c Hc. apply in_map_iff in Hc.
      destruct Hc as (k & <- & _). apply Nat2Z.is_nonneg.
Qed.

(** A batch returned by [sample] on the modelled library: the samples the
    generator drew, each as the list of its counts. *)
Lemma sample_spec_inr (w : walrus_numerics) (K : ndarray R) (n_mean : R)
    (n : Z) (g g' : random_source) (b : pyobj Z) :
  sample (spec_csamples w) K n_mean n g = (inr b, g') ->
  exists ls Om xs,
    spec_rescale w K n_mean = inr (ls, Om) /\
    draw_samples (length (data ls)) (Z.to_nat n) g = (xs, g') /\
    b = PyList (map (fun x => PyList (map PyScalar (data x))) xs).
Proof.
  unfold sample. cbn [rescale_adjacency_matrix_thermal generate_thermal_samples
                      spec_csamples].
  intros H.
  destruct (spec_rescale w K n_mean) as [e|[ls Om]] eqn:HR; [discriminate|].
  unfold spec_generate in H.
  destruct (generate_error w ls Om n) as [e|]; [discriminate|].
  destruct (draw_samples (length (data ls)) (Z.to_nat n) g) as [xs g1] eqn:HD.
  destruct (draw_samples_spec _ _ _ _ _ HD) as [_ HF].
  assert (HS : Forall (fun s => shape s = [length (data ls)] /\ wf_ndarray s) xs).
  { eapply Forall_impl; [|exact HF]. intros s (Hs & Hw & _). now split. }
  pose proof (tolist_np_array _ _ HS) as HT.
  cbv [bind ret] in H, HT. rewrite HT in H.
  injection H as <- <-.
  exists ls, Om, xs. repeat split; assumption || reflexivity.
Qed.





(** C7: every element of every sample of a batch returned by [sample] is
    a non-negative integer. *)
Theorem sample_counts_nonneg_spec (w : walrus_numerics) (K : ndarray R)
    (n_mean : R) (n : Z) (g g' : random_source) (b : pyobj Z) :
  sample (spec_csamples w) K n_mean n g = (inr b, g') ->
  exists samples,
    b = PyList samples /\
    Forall (fun s => exists counts,
              s = PyList (map PyScalar counts) /\
              Forall (fun c => (0 <= c)%Z) counts) samples.
Proof.
  intros H.
  destruct (sample_spec_inr _ _ _ _ _ _ _ H) as (ls & Om & xs & HR & HD & ->).
  destruct (draw_samples_spec _ _ _ _ _ HD) as [_ HF].
  eexists. split; [reflexivity|].
  apply Forall_map. eapply Forall_impl; [|exact HF].
  intros s (_ & _ & Hc). exists (data s). split; [reflexivity | exact Hc].
Qed.

Lemma sample_counts_nonneg_spec_witness :
  exists samples,
    PyList [PyList [PyScalar 0%Z; PyScalar 1%Z];
            PyList [PyScalar 2%Z; PyScalar 0%Z];
            PyList [PyScalar 1%Z; PyScalar 2%Z]] = PyList samples /\
    Forall (fun s => exists counts,
              s = PyList (map PyScalar counts) /\
              Forall (fun c => (0 <= c)%Z) counts) samples.
Proof.
  apply (sample_counts_nonneg_spec numerics_accepting K_identity2 1 3
           source_cycle (mk_random_source (fun k => Nat.modulo k 3) 6));
    reflexivity.
Defined.

(** * Properties of the float64 model *)

Module F64Theory.
Import PrimFloat SpecFloat FloatOps FloatAxioms.
Import Bool.
Local Open Scope float_scope.

(** ** Signs through rounding, on the specification of binary64 *)

Section Spec.
Variables prec emax : Z.

Lemma shr_1_nonneg (mrs : shr_record) :
  (0 <= shr_m mrs)%Z -> (0 <= shr_m (shr_1 mrs))%Z.
Proof.
  destruct mrs as [m r s]. cbn [shr_m]. intros Hm.
  destruct m as [|p|p]; [cbn; lia| |lia].
  destruct p; cbn; lia.
Qed.

Lemma iter_pos_invariant {A : Type} (P : A -> Prop) (f : A -> A) :
  (forall x, P x -> P (f x)) -> forall n x, P x -> P (SpecFloat.iter_pos f n x).
Proof.
  intros Hf. induction n as [n IH|n IH|]; intros x Hx; cbn [SpecFloat.iter_pos].
  - apply IH, IH, Hf, Hx.
  - apply IH, IH, Hx.
  - apply Hf, Hx.
Qed.

Lemma shr_nonneg (mrs : shr_record) (e n : Z) :
  (0 <= shr_m mrs)%Z -> (0 <= shr_m (fst (shr mrs e n)))%Z.
Proof.
  intros Hm. unfold shr. destruct n; cbn [fst]; try assumption.
  apply (@iter_pos_invariant shr_record (fun r => (0 <= shr_m r)%Z)); [apply shr_1_nonneg | assumption].
Qed.

Lemma shr_fexp_nonneg (m e : Z) (l : location) :
  (0 <= m)%Z -> (0 <= shr_m (fst (shr_fexp prec emax m e l)))%Z.
Proof.
  intros Hm. unfold shr_fexp. apply shr_nonneg.
  destruct l as [|[| |]]; exact Hm.
Qed.

Lemma round_nearest_even_nonneg (m : Z) (l : location) :
  (0 <= m)%Z -> (0 <= round_nearest_even m l)%Z.
Proof.
  intros Hm. unfold round_nearest_even.
  destruct l as [|[| |]]; try lia. destruct (Z.even m); lia.
Qed.

Lemma binary_round_aux_sign (sx : bool) (mx ex : Z) (lx : location) :
  (0 <= mx)%Z -> F64.has_sign sx (binary_round_aux prec emax sx mx ex lx) = true.
Proof.
  intros Hm. unfold binary_round_aux.
  pose proof (shr_fexp_nonneg mx ex lx Hm) as H1.
  destruct (shr_fexp prec emax mx ex lx) as [mrs' e'] eqn:E1. cbn [fst] in H1.
  pose proof (shr_fexp_nonneg _ e' loc_Exact
                (round_nearest_even_nonneg _ (loc_of_shr_record mrs') H1)) as H2.
  destruct (shr_fexp prec emax _ e' loc_Exact) as [mrs'' e''] eqn:E2.
  cbn [fst] in H2.
  destruct (shr_m mrs'') as [|p|p]; [| |lia].
  - cbn. apply eqb_reflx.
  - destruct (Z.leb e'' (emax - prec)); cbn; apply eqb_reflx.
Qed.

Lemma binary_round_sign (sx : bool) (mx : positive) (ex : Z) :
  F64.has_sign sx (binary_round prec emax sx mx ex) = true.
Proof.
  unfold binary_round. destruct (shl_align _ _ _) as [mz ez].
  apply binary_round_aux_sign. lia.
Qed.

Lemma has_sign_not_nan (s : bool) (x : spec_float) :
  F64.has_sign s x = true -> x <> S754_nan.
Proof. intros H ->. discriminate. Qed.

Lemma binary_normalize_not_nan (m e : Z) (sz : bool) :
  binary_normalize prec emax m e sz <> S754_nan.
Proof.
  unfold binary_normalize. destruct m as [|p|p]; [discriminate| |].
  - apply (has_sign_not_nan false), binary_round_sign.
  - apply (has_sign_not_nan true), binary_round_sign.
Qed.

Lemma SFsub_finite_not_nan (a b : spec_float) :
  F64.sf_finite a = true -> F64.sf_finite b = true -> SFsub prec emax a b <> S754_nan.
Proof.
  destruct a as [sa|sa| |sa ma ea]; try discriminate;
    destruct b as [sb|sb| |sb mb eb]; try discriminate; intros _ _; cbn [SFsub].
  - destruct sa, sb; cbn; congruence.
  - apply binary_normalize_not_nan.
Qed.

Lemma SFsub_self (a : spec_float) :
  F64.sf_finite a = true -> SFsub prec emax a a = S754_zero false.
Proof.
  destruct a as [sa|sa| |sa ma ea]; try discriminate; intros _; cbn [SFsub].
  - destruct sa; reflexivity.
  - rewrite Z.sub_diag. reflexivity.
Qed.

Lemma SFmul_self_sign (x : spec_float) :
  x <> S754_nan -> F64.has_sign false (SFmul prec emax x x) = true.
Proof.
  destruct x as [s|s| |s m e]; intros H; cbn [SFmul].
  - destruct s; reflexivity.
  - destruct s; reflexivity.
  - contradiction.
  - rewrite xorb_nilpotent. apply binary_round_aux_sign. lia.
Qed.

Lemma has_sign_inv (s : bool) (x : spec_float) :
  F64.has_sign s x = true ->
  x = S754_zero s \/ x = S754_infinity s \/ exists m e, x = S754_finite s m e.
Proof.
  destruct x as [t|t| |t m e]; cbn [F64.has_sign]; intros H; try discriminate;
    apply eqb_prop in H; subst t; eauto.
Qed.

Lemma SFadd_sign_false (a b : spec_float) :
  F64.has_sign false a = true -> F64.has_sign false b = true ->
  F64.has_sign false (SFadd prec emax a b) = true.
Proof.
  intros Ha Hb.
  destruct (has_sign_inv _ _ Ha) as [->|[->|(ma & ea & ->)]];
    destruct (has_sign_inv _ _ Hb) as [->|[->|(mb & eb & ->)]];
    try reflexivity.
  cbn [SFadd cond_Zopp Z.add binary_normalize]. apply binary_round_sign.
Qed.

Lemma SFsqrt_sign_false (a : spec_float) :
  F64.has_sign false a = true -> F64.has_sign false (SFsqrt prec emax a) = true.
Proof.
  intros Ha.
  destruct (has_sign_inv _ _ Ha) as [->|[->|(ma & ea & ->)]]; try reflexivity.
  cbn [SFsqrt]. unfold SFsqrt_core_binary.
  match goal with |- context [Z.sqrtrem ?m] =>
    pose proof (Z.sqrtrem_sqrt m) as Hq; pose proof (Z.sqrt_nonneg m) as Hn;
    destruct (Z.sqrtrem m) as [q r] end.
  cbn [fst] in Hq. subst q. apply binary_round_aux_sign. assumption.
Qed.

Lemma SFopp_sign (s : bool) (a : spec_float) :
  F64.has_sign s a = true -> F64.has_sign (negb s) (SFopp a) = true.
Proof.
  intros Ha.
  destruct (has_sign_inv _ _ Ha) as [->|[->|(ma & ea & ->)]];
    cbn; apply eqb_reflx.
Qed.

Lemma SFdiv_sign_true (a : spec_float) (m : positive) (e : Z) :
  F64.has_sign true a = true ->
  F64.has_sign true (SFdiv prec emax a (S754_finite false m e)) = true.
Proof.
  intros Ha.
  destruct (has_sign_inv _ _ Ha) as [->|[->|(ma & ea & ->)]]; try reflexivity.
  cbn [SFdiv xorb]. unfold SFdiv_core_binary.
  match goal with |- context [Z.div_eucl ?x ?y] =>
    assert (Hx : (0 <= x)%Z);
    [|pose proof (Z.div_pos x y Hx ltac:(lia)) as Hq; unfold Z.div in Hq;
      destruct (Z.div_eucl x y) as [q r]] end.
  - match goal with |- context [match ?s with Z0 => _ | Zpos _ => _ | Zneg _ => _ end] =>
      destruct s eqn:Es end; try lia.
    apply Z.shiftl_nonneg. lia.
  - apply binary_round_aux_sign. assumption.
Qed.

Lemma SFleb_nonpos (a : spec_float) :
  F64.has_sign true a = true -> SFleb a (S754_zero false) = true.
Proof.
  intros Ha.
  destruct (has_sign_inv _ _ Ha) as [->|[->|(ma & ea & ->)]]; reflexivity.
Qed.

Lemma binary_round_opp (s : bool) (m : positive) (e : Z) :
  binary_round prec emax (negb s) m e = SFopp (binary_round prec emax s m e).
Proof.
  unfold binary_round. destruct (shl_align _ _ _) as [mz ez].
  unfold binary_round_aux.
  destruct (shr_fexp prec emax (Z.pos mz) ez loc_Exact) as [mrs' e'].
  destruct (shr_fexp prec emax _ e' loc_Exact) as [mrs'' e''].
  destruct (shr_m mrs''); try reflexivity.
  destruct (Z.leb e'' (emax - prec)); reflexivity.
Qed.

Lemma SFmul_opp_opp (t : spec_float) :
  SFmul prec emax (SFopp t) (SFopp t) = SFmul prec emax t t.
Proof.
  destruct t as [s|s| |s m e]; cbn [SFopp SFmul]; try reflexivity;
    destruct s; reflexivity.
Qed.

Lemma SFsub_swap (a b : spec_float) :
  SFsub prec emax b a = SFopp (SFsub prec emax a b) \/
  SFsub prec emax b a = SFsub prec emax a b.
Proof.
  destruct a as [sa|sa| |sa ma ea]; destruct b as [sb|sb| |sb mb eb];
    cbn [SFsub SFopp];
    try solve [ left; reflexivity | right; reflexivity
              | destruct sa, sb; cbn; auto
              | destruct sa; cbn; auto | destruct sb; cbn; auto ].
  rewrite (Z.min_comm eb ea).
  set (A := cond_Zopp sa (Z.pos (fst (shl_align ma ea (Z.min ea eb))))).
  set (B := cond_Zopp sb (Z.pos (fst (shl_align mb eb (Z.min ea eb))))).
  replace (B - A)%Z with (- (A - B))%Z by lia.
  destruct (A - B)%Z as [|p|p]; cbn [Z.opp binary_normalize].
  - right. reflexivity.
  - left. apply (binary_round_opp false).
  - left. rewrite <- (binary_round_opp true). reflexivity.
Qed.

Lemma SFmul_sub_swap (a b : spec_float) :
  SFmul prec emax (SFsub prec emax b a) (SFsub prec emax b a)
  = SFmul prec emax (SFsub prec emax a b) (SFsub prec emax a b).
Proof.
  destruct (SFsub_swap a b) as [-> | ->]; [apply SFmul_opp_opp | reflexivity].
Qed.

Lemma SFabs_opp (t : spec_float) : SFabs (SFopp t) = SFabs t.
Proof. destruct t; reflexivity. Qed.
End Spec.

(** ** Primitive floats through their specification *)

Lemma Prim2SF_zero : Prim2SF 0 = S754_zero false.
Proof. reflexivity. Qed.

Lemma Prim2SF_infinity : Prim2SF infinity = S754_infinity false.
Proof. reflexivity. Qed.

Lemma is_finite_spec (x : float) :
  is_finite x = true -> F64.sf_finite (Prim2SF x) = true.
Proof.
  unfold is_finite, is_nan, is_infinity.
  rewrite !FloatAxioms.eqb_spec, FloatAxioms.abs_spec, Prim2SF_infinity.
  destruct (Prim2SF x) as [s|s| |s m e]; cbn; try reflexivity; intros H;
    try discriminate H.
  destruct s; discriminate H.
Qed.

Lemma sub_self (x : float) : is_finite x = true -> x - x = 0.
Proof.
  intros Hx. apply Prim2SF_inj.
  rewrite FloatAxioms.sub_spec, Prim2SF_zero. apply SFsub_self, is_finite_spec, Hx.
Qed.

Lemma sq_sub_swap (x y : float) : (y - x) * (y - x) = (x - y) * (x - y).
Proof.
  apply Prim2SF_inj. rewrite !FloatAxioms.mul_spec, !FloatAxioms.sub_spec. apply SFmul_sub_swap.
Qed.

Lemma sq_opp (x : float) : (- x) * (- x) = x * x.
Proof.
  apply Prim2SF_inj. rewrite !FloatAxioms.mul_spec, FloatAxioms.opp_spec. apply SFmul_opp_opp.
Qed.

Lemma is_infinity_opp (x : float) : is_infinity (- x) = is_infinity x.
Proof.
  unfold is_infinity. rewrite !FloatAxioms.eqb_spec, !FloatAxioms.abs_spec, FloatAxioms.opp_spec, SFabs_opp.
  reflexivity.
Qed.

Lemma leb_ltb_eqb (x y : float) : (x <=? y) = ((x <? y) || (x =? y))%bool.
Proof.
  rewrite FloatAxioms.leb_spec, FloatAxioms.ltb_spec, FloatAxioms.eqb_spec. unfold SFleb, SFltb, SFeqb.
  destruct (SFcompare (Prim2SF x) (Prim2SF y)) as [[| |]|]; reflexivity.
Qed.

Lemma positive_finite_spec (x : float) :
  (0 <? x) = true -> (x <? infinity) = true ->
  exists m e, Prim2SF x = S754_finite false m e.
Proof.
  rewrite !FloatAxioms.ltb_spec, Prim2SF_zero, Prim2SF_infinity.
  destruct (Prim2SF x) as [s|s| |s m e]; cbn; try discriminate.
  - destruct s; discriminate.
  - destruct s; [discriminate|]. intros _ _. eauto.
Qed.

Lemma positive_finite_not_infinity (x : float) :
  (0 <? x) = true -> (x <? infinity) = true -> is_infinity x = false.
Proof.
  intros H0 H1. destruct (positive_finite_spec x H0 H1) as (m & e & Hx).
  unfold is_infinity. rewrite FloatAxioms.eqb_spec, FloatAxioms.abs_spec, Hx, Prim2SF_infinity.
  reflexivity.
Qed.

(** ** Distances in float64 *)

Lemma Forall_row {A : Type} (P : A -> Prop) (d : nat) (buf : list A) (i : nat) :
  Forall P buf -> Forall P (row d buf i).
Proof.
  intros H. unfold row.
  assert (Hs : Forall P (skipn (i * d) buf)).
  { rewrite <- (firstn_skipn (i * d) buf) in H.
    apply Forall_app in H. apply H. }
  rewrite <- (firstn_skipn d (skipn (i * d) buf)) in Hs.
  apply Forall_app in Hs. apply Hs.
Qed.

Lemma sqdist_fold_swap (u : list float) : forall (v : list float) (acc : float),
  fold_left (fun a p => a + (fst p - snd p) * (fst p - snd p)) (combine u v) acc
  = fold_left (fun a p => a + (fst p - snd p) * (fst p - snd p)) (combine v u) acc.
Proof.
  induction u as [|x u IH]; intros [|y v] acc; try reflexivity.
  cbn [combine fold_left fst snd]. rewrite (sq_sub_swap y x). apply IH.
Qed.

Lemma sqdist_sym_f64 (u v : list float) : F64.sqdist u v = F64.sqdist v u.
Proof. apply sqdist_fold_swap. Qed.

Lemma euclidean_sym_f64 (u v : list float) : F64.euclidean u v = F64.euclidean v u.
Proof. unfold F64.euclidean. now rewrite sqdist_sym_f64. Qed.

Lemma sqdist_self_f64 (u : list float) :
  Forall (fun x => is_finite x = true) u -> F64.sqdist u u = 0.
Proof.
  unfold F64.sqdist. induction 1 as [|x u Hx _ IH]; [reflexivity|].
  cbn [combine fold_left fst snd]. rewrite (sub_self x Hx).
  change (0 + 0 * 0) with 0. exact IH.
Qed.

Lemma euclidean_self_f64 (u : list float) :
  Forall (fun x => is_finite x = true) u -> F64.euclidean u u = 0.
Proof.
  intros H. unfold F64.euclidean. rewrite (sqdist_self_f64 u H). reflexivity.
Qed.

Lemma sqdist_fold_sign (u : list float) : forall (v : list float) (acc : float),
  Forall (fun x => is_finite x = true) u ->
  Forall (fun x => is_finite x = true) v ->
  F64.has_sign false (Prim2SF acc) = true ->
  F64.has_sign false
    (Prim2SF (fold_left (fun a p => a + (fst p - snd p) * (fst p - snd p))
                (combine u v) acc)) = true.
Proof.
  induction u as [|x u IH]; intros [|y v] acc Hu Hv Hacc; try exact Hacc.
  cbn [combine fold_left fst snd].
  inversion Hu as [|? ? Hx Hu']; inversion Hv as [|? ? Hy Hv']; subst.
  apply IH; try assumption.
  rewrite FloatAxioms.add_spec, FloatAxioms.mul_spec, FloatAxioms.sub_spec.
  apply SFadd_sign_false; [assumption|].
  apply SFmul_self_sign, SFsub_finite_not_nan; apply is_finite_spec; assumption.
Qed.

Lemma euclidean_sign (u v : list float) :
  Forall (fun x => is_finite x = true) u ->
  Forall (fun x => is_finite x = true) v ->
  F64.has_sign false (Prim2SF (F64.euclidean u v)) = true.
Proof.
  intros Hu Hv. unfold F64.euclidean, F64.sqdist.
  rewrite FloatAxioms.sqrt_spec. apply SFsqrt_sign_false.
  apply sqdist_fold_sign; try assumption. reflexivity.
Qed.

Lemma Prim2SF_two : Prim2SF 2 = S754_finite false 4503599627370496 (-51).
Proof. reflexivity. Qed.

(** The argument of [np.exp] is never positive and never nan. *)
Lemma exponent_sign (s2 d : float) :
  (0 <? s2) = true -> (s2 <? infinity) = true ->
  F64.has_sign false (Prim2SF d) = true ->
  F64.has_sign true (Prim2SF (F64.exponent s2 d)) = true.
Proof.
  intros H0 H1 Hd. destruct (positive_finite_spec s2 H0 H1) as (m & e & Hs).
  unfold F64.exponent.
  rewrite !FloatAxioms.div_spec, FloatAxioms.opp_spec, FloatAxioms.mul_spec, Hs, Prim2SF_two.
  apply SFdiv_sign_true, SFdiv_sign_true.
  apply (SFopp_sign false), SFmul_self_sign.
  apply (has_sign_not_nan false), Hd.
Qed.

Lemma exponent_leb_zero (s2 d : float) :
  (0 <? s2) = true -> (s2 <? infinity) = true ->
  F64.has_sign false (Prim2SF d) = true ->
  (F64.exponent s2 d <=? 0) = true.
Proof.
  intros H0 H1 Hd. rewrite FloatAxioms.leb_spec, Prim2SF_zero.
  apply SFleb_nonpos, exponent_sign; assumption.
Qed.

(** At distance zero the argument of [np.exp] is [-0.0]. *)
Lemma exponent_zero (s2 : float) :
  (0 <? s2) = true -> (s2 <? infinity) = true -> F64.exponent s2 0 = -0.
Proof.
  intros H0 H1. destruct (positive_finite_spec s2 H0 H1) as (m & e & Hs).
  unfold F64.exponent. change (- (0 * 0) / 2) with (-0).
  apply Prim2SF_inj. rewrite FloatAxioms.div_spec, Hs. reflexivity.
Qed.

(** ** The kernel matrix in float64 *)

Lemma float_pow2_finite (sigma : float) :
  is_infinity (sigma * sigma) = false ->
  F64.float_pow2 sigma = inr (sigma * sigma).
Proof. intros H. unfold F64.float_pow2. rewrite H. reflexivity. Qed.

Lemma rbf_kernel_unfold_f64 (np_exp1 : float -> float) (Rc : ndarray float)
    (sigma s2 : float) (N D : nat) :
  shape Rc = [N; D] -> F64.float_pow2 sigma = inr s2 ->
  F64.rbf_kernel np_exp1 Rc sigma
  = inr (mk_ndarray [N; N]
           (map (fun d => np_exp1 (F64.exponent s2 d))
              (F64.cdist_data D N N (data Rc) (data Rc)))).
Proof.
  intros HS Hp. unfold F64.rbf_kernel, F64.rbf_exponent, F64.cdist.
  rewrite HS, Nat.eqb_refl. cbn [bind ret]. rewrite Hp. cbn [bind ret].
  unfold np_map. cbn [shape data]. rewrite !map_map. reflexivity.
Qed.

Lemma rbf_kernel_raise (np_exp1 : float -> float) (Rc : ndarray float)
    (sigma : float) (N D : nat) (err : exn) :
  shape Rc = [N; D] -> F64.float_pow2 sigma = inl err ->
  F64.rbf_kernel np_exp1 Rc sigma = inl err.
Proof.
  intros HS Hp. unfold F64.rbf_kernel, F64.rbf_exponent, F64.cdist.
  rewrite HS, Nat.eqb_refl. cbn [bind ret]. rewrite Hp. reflexivity.
Qed.

Lemma get2_kernel (f : float -> float) (Rc : ndarray float) (N D i j : nat) :
  shape Rc = [N; D] -> (i < N)%nat -> (j < N)%nat ->
  get2 (mk_ndarray [N; N] (map f (F64.cdist_data D N N (data Rc) (data Rc)))) i j
  = Some (f (F64.euclidean (F64.point Rc i) (F64.point Rc j))).
Proof.
  intros HS Hi Hj. unfold get2. cbn [shape data].
  destruct (Nat.ltb_spec i N); [|lia].
  destruct (Nat.ltb_spec j N); [|lia].
  cbn [andb]. rewrite nth_error_map. unfold F64.cdist_data.
  rewrite (nth_error_grid
             (fun a b => F64.euclidean (row D (data Rc) a) (row D (data Rc) b)))
    by assumption.
  cbn. unfold F64.point. rewrite HS. reflexivity.
Qed.

Lemma wf_kernel (f : float -> float) (N D : nat) (buf : list float) :
  wf_ndarray (mk_ndarray [N; N] (map f (F64.cdist_data D N N buf buf))).
Proof.
  unfold wf_ndarray, F64.cdist_data. cbn [shape data fold_right].
  rewrite length_map, length_grid. lia.
Qed.

Lemma Forall_point (P : float -> Prop) (Rc : ndarray float) (i : nat) :
  Forall P (data Rc) -> Forall P (F64.point Rc i).
Proof.
  intros H. unfold F64.point.
  destruct (shape Rc) as [|a [|b [|c l]]]; try constructor.
  apply Forall_row, H.
Qed.

(** ** The stand-in for [np.exp] *)

Lemma step_exp_zero : F64.step_exp (-0) = 1.
Proof. reflexivity. Qed.

Lemma step_exp_nan : F64.step_exp nan = nan.
Proof. reflexivity. Qed.

Lemma step_exp_underflow (z : float) :
  (z <? -746) = true -> F64.step_exp z = 0.
Proof. intros H. unfold F64.step_exp. now rewrite H. Qed.

Lemma step_exp_range (z : float) :
  (z <=? 0) = true ->
  (0 <=? F64.step_exp z) = true /\ (F64.step_exp z <=? 1) = true.
Proof.
  intros H. unfold F64.step_exp.
  destruct (z <? -746); [split; reflexivity|].
  rewrite leb_ltb_eqb in H.
  destruct (z <? 0); [split; reflexivity|].
  cbn [orb] in H. rewrite H. split; reflexivity.
Qed.

(** ** The claims about [rbf_kernel], in float64 *)




(** C4, amended: when all coordinates are finite and the square of the
    bandwidth is a positive finite float64 (it neither overflows nor
    underflows to zero), every diagonal entry of the kernel matrix is
    [np.exp(-0.0)], which is [1.0]. *)
Theorem rbf_kernel_diagonal_f64 (np_exp1 : float -> float) (Rc : ndarray float)
    (sigma : float) (N D : nat) :
  shape Rc = [N; D] ->
  Forall (fun x => is_finite x = true) (data Rc) ->
  (0 <? sigma * sigma) = true -> (sigma * sigma <? infinity) = true ->
  exists K,
    F64.rbf_kernel np_exp1 Rc sigma = inr K /\
    forall i, (i < N)%nat ->
      get2 K i i = Some (np_exp1 (-0)) /\
      (np_exp1 (-0) = 1 -> get2 K i i = Some 1).
Proof.
  intros HS HF H0 H1. eexists.
  split.
  { apply (rbf_kernel_unfold_f64 _ _ _ (sigma * sigma) N D HS).
    apply float_pow2_finite, positive_finite_not_infinity; assumption. }
  intros i Hi.
  rewrite (get2_kernel (fun d => np_exp1 (F64.exponent (sigma * sigma) d))
             Rc N D i i HS Hi Hi).
  rewrite (euclidean_self_f64 _ (Forall_point _ Rc i HF)).
  rewrite (exponent_zero _ H0 H1).
  split; [reflexivity | now intros ->].
Qed.

Lemma rbf_kernel_diagonal_f64_witness :
  exists K,
    F64.rbf_kernel F64.step_exp F64.R_example 1 = inr K /\
    forall i, (i < 4)%nat ->
      get2 K i i = Some (F64.step_exp (-0)) /\
      (F64.step_exp (-0) = 1 -> get2 K i i = Some 1).
Proof.
  apply (rbf_kernel_diagonal_f64 F64.step_exp F64.R_example 1 4 2);
    try reflexivity.
  repeat constructor.
Defined.

(** C4 fails as stated: for the positive bandwidth [2^-600], whose square
    underflows to [0.0], the first diagonal entry is [np.exp(nan)], not
    [1.0]. *)
Lemma rbf_kernel_diagonal_nan_f64 :
  ~ (forall np_exp1 : float -> float,
       np_exp1 nan = nan ->
       exists K,
         F64.rbf_kernel np_exp1 F64.R_example F64.sigma_tiny = inr K /\
         get2 K 0 0 = Some 1).
Proof.
  intros H. destruct (H F64.step_exp step_exp_nan) as (K & HK & H00).
  apply (f_equal (fun r => match r with
                           | inr k => get2 k 0 0
                           | inl _ => None
                           end)) in HK.
  rewrite H00 in HK.
  apply (f_equal (fun o => match o with
                           | Some v => is_nan v
                           | None => false
                           end)) in HK.
  vm_compute in HK. discriminate HK.
Qed.

(** C5, amended: when all coordinates are finite and the square of the
    bandwidth is a positive finite float64, every entry of the kernel
    matrix is [np.exp] of a float64 that is at most zero, hence lies in the
    closed interval [0, 1], as [np.exp] maps such floats into it. *)
Theorem rbf_kernel_range_f64 (np_exp1 : float -> float) (Rc : ndarray float)
    (sigma : float) (N D : nat) :
  shape Rc = [N; D] ->
  Forall (fun x => is_finite x = true) (data Rc) ->
  (0 <? sigma * sigma) = true -> (sigma * sigma <? infinity) = true ->
  exists K,
    F64.rbf_kernel np_exp1 Rc sigma = inr K /\
    forall i j x,
      get2 K i j = Some x ->
      exists z,
        (z <=? 0) = true /\ x = np_exp1 z /\
        ((forall t, (t <=? 0) = true ->
                    (0 <=? np_exp1 t) = true /\ (np_exp1 t <=? 1) = true) ->
         (0 <=? x) = true /\ (x <=? 1) = true).
Proof.
  intros HS HF H0 H1. eexists.
  split.
  { apply (rbf_kernel_unfold_f64 _ _ _ (sigma * sigma) N D HS).
    apply float_pow2_finite, positive_finite_not_infinity; assumption. }
  intros i j x Hx.
  destruct (get2_Some_inv _ _ _ _ _ _ Hx) as [Hi Hj].
  rewrite (get2_kernel (fun d => np_exp1 (F64.exponent (sigma * sigma) d))
             Rc N D i j HS Hi Hj) in Hx.
  apply (f_equal (fun o => match o with Some v => v | None => x end)) in Hx.
  subst x.
  assert (Hz : (F64.exponent (sigma * sigma)
                  (F64.euclidean (F64.point Rc i) (F64.point Rc j)) <=? 0) = true).
  { apply exponent_leb_zero; try assumption.
    apply euclidean_sign; apply Forall_point; assumption. }
  eexists. split; [exact Hz|]. split; [reflexivity|].
  intros He. apply He, Hz.
Qed.

Lemma rbf_kernel_range_f64_witness :
  exists K,
    F64.rbf_kernel F64.step_exp F64.R_far 1 = inr K /\
    forall i j x,
      get2 K i j = Some x ->
      exists z,
        (z <=? 0) = true /\ x = F64.step_exp z /\
        ((forall t, (t <=? 0) = true ->
                    (0 <=? F64.step_exp t) = true /\ (F64.step_exp t <=? 1) = true) ->
         (0 <=? x) = true /\ (x <=? 1) = true).
Proof.
  apply (rbf_kernel_range_f64 F64.step_exp F64.R_far 1 2 1);
    try reflexivity.
  repeat constructor.
Defined.

(** C5 fails as stated: for two points a hundred bandwidths apart the
    off-diagonal entry is [np.exp(-5000.0)], which underflows to [0.0], so
    it is not strictly positive. *)
Lemma rbf_kernel_underflow_f64 :
  ~ (forall np_exp1 : float -> float,
       (forall z, (z <? -746) = true -> np_exp1 z = 0) ->
       exists K,
         F64.rbf_kernel np_exp1 F64.R_far 1 = inr K /\
         forall i j x, get2 K i j = Some x ->
                       (0 <? x) = true /\ (x <=? 1) = true).
Proof.
  intros H. destruct (H F64.step_exp step_exp_underflow) as (K & HK & HR).
  apply (f_equal (fun r => match r with
                           | inr k => get2 k 0 1
                           | inl _ => None
                           end)) in HK.
  vm_compute in HK. symmetry in HK.
  destruct (HR 0%nat 1%nat 0 HK) as [Hpos _].
  vm_compute in Hpos. discriminate Hpos.
Qed.

Lemma float_pow2_opp (sigma : float) :
  F64.float_pow2 (- sigma) = F64.float_pow2 sigma.
Proof.
  unfold F64.float_pow2. now rewrite sq_opp, is_infinity_opp.
Qed.

(** C9, amended: the sign of the bandwidth is irrelevant, for every
    bandwidth: [rbf_kernel R (- sigma)] is [rbf_kernel R sigma], the same
    matrix or the same error.  A negative bandwidth fails exactly when its
    absolute value does. *)
Theorem rbf_kernel_sigma_sign_f64 (np_exp1 : float -> float)
    (Rc : ndarray float) (sigma : float) :
  F64.rbf_kernel np_exp1 Rc (- sigma) = F64.rbf_kernel np_exp1 Rc sigma.
Proof.
  unfold F64.rbf_kernel, F64.rbf_exponent. now rewrite float_pow2_opp.
Qed.

(** C9 fails as stated: the negative bandwidth [- 2^600] is nonzero and
    the call raises [OverflowError]. *)
Lemma rbf_kernel_negative_overflow_f64 :
  (fun np_exp1 => F64.rbf_kernel np_exp1 F64.R_example (- F64.sigma_huge))
  = (fun _ => inl (OverflowError "(34, 'Numerical result out of range')"%string)).
Proof. reflexivity. Qed.

(** C10, amended: on an empty coordinate matrix, of shape [(0, D)], and
    for a bandwidth whose square does not overflow, [rbf_kernel] returns
    the empty 0 x 0 matrix. *)
Theorem rbf_kernel_empty_f64 (np_exp1 : float -> float) (Rc : ndarray float)
    (sigma : float) (D : nat) :
  shape Rc = [O; D] -> is_infinity (sigma * sigma) = false ->
  F64.rbf_kernel np_exp1 Rc sigma = inr (mk_ndarray [O; O] []).
Proof.
  intros HS Hf.
  rewrite (rbf_kernel_unfold_f64 _ _ _ _ O D HS (float_pow2_finite _ Hf)).
  reflexivity.
Qed.

Lemma rbf_kernel_empty_f64_witness :
  F64.rbf_kernel F64.step_exp F64.R_empty 1 = inr (mk_ndarray [O; O] []).
Proof.
  apply (rbf_kernel_empty_f64 F64.step_exp F64.R_empty 1 3); reflexivity.
Defined.

(** C10 fails as stated: on the empty matrix too, the positive bandwidth
    [2^600] makes the call raise [OverflowError]. *)
Lemma rbf_kernel_empty_overflow_f64 :
  (fun np_exp1 => F64.rbf_kernel np_exp1 F64.R_empty F64.sigma_huge)
  = (fun _ => inl (OverflowError "(34, 'Numerical result out of range')"%string)).
Proof. reflexivity. Qed.

(** ** Further properties in float64 *)

(** [rbf_kernel] raises in exactly two cases: [cdist]'s [ValueError] for an
    array that is not 2-D, and otherwise [OverflowError] when the square of
    a bandwidth that is not itself infinite overflows; in every other case
    it returns a well-formed square matrix. *)
Theorem rbf_kernel_raises_iff_f64 (np_exp1 : float -> float)
    (Rc : ndarray float) (sigma : float) :
  (length (shape Rc) <> 2%nat ->
   F64.rbf_kernel np_exp1 Rc sigma
   = inl (ValueError "XA must be a 2-dimensional array."%string)) /\
  (length (shape Rc) = 2%nat ->
   (is_infinity (sigma * sigma) && negb (is_infinity sigma))%bool = true ->
   F64.rbf_kernel np_exp1 Rc sigma
   = inl (OverflowError "(34, 'Numerical result out of range')"%string)) /\
  (length (shape Rc) = 2%nat ->
   (is_infinity (sigma * sigma) && negb (is_infinity sigma))%bool = false ->
   exists K N,
     F64.rbf_kernel np_exp1 Rc sigma = inr K /\
     shape K = [N; N] /\ wf_ndarray K).
Proof.
  split; [|split].
  - intros HL. unfold F64.rbf_kernel, F64.rbf_exponent, F64.cdist.
    destruct (shape Rc) as [|N [|D [|x rest]]]; try reflexivity.
    cbn in HL. lia.
  - intros HL Ho.
    destruct (shape Rc) as [|N [|D [|x rest]]] eqn:HS; try discriminate.
    apply (rbf_kernel_raise _ _ _ N D _ HS).
    unfold F64.float_pow2. rewrite Ho. reflexivity.
  - intros HL Ho.
    destruct (shape Rc) as [|N [|D [|x rest]]] eqn:HS; try discriminate.
    eexists. exists N. split.
    + apply (rbf_kernel_unfold_f64 _ _ _ (sigma * sigma) N D HS).
      unfold F64.float_pow2. rewrite Ho. reflexivity.
    + split; [reflexivity | apply wf_kernel].
Qed.

(** Whenever [rbf_kernel] returns, the matrix is symmetric bit for bit:
    [K[i][j]] and [K[j][i]] are the same float64 (or both out of range). *)
Theorem rbf_kernel_symmetric_f64 (np_exp1 : float -> float)
    (Rc : ndarray float) (sigma : float) (K : ndarray float) :
  F64.rbf_kernel np_exp1 Rc sigma = inr K ->
  forall i j, get2 K i j = get2 K j i.
Proof.
  intros HK i j.
  destruct (shape Rc) as [|N [|D [|x rest]]] eqn:HS;
    try (unfold F64.rbf_kernel, F64.rbf_exponent, F64.cdist in HK;
         rewrite HS in HK; discriminate HK).
  destruct (F64.float_pow2 sigma) as [err|s2] eqn:Hp.
  { rewrite (rbf_kernel_raise _ _ _ N D err HS Hp) in HK. discriminate HK. }
  rewrite (rbf_kernel_unfold_f64 _ _ _ s2 N D HS Hp) in HK.
  apply (f_equal (fun r => match r with inr k => k | inl _ => K end)) in HK.
  subst K.
  destruct (Nat.ltb_spec i N) as [Hi|Hi]; destruct (Nat.ltb_spec j N) as [Hj|Hj].
  - rewrite (get2_kernel _ Rc N D i j HS Hi Hj).
    rewrite (get2_kernel _ Rc N D j i HS Hj Hi).
    now rewrite euclidean_sym_f64.
  - unfold get2. cbn [shape].
    apply Nat.ltb_ge in Hj. rewrite Hj, Bool.andb_false_r. reflexivity.
  - unfold get2. cbn [shape].
    apply Nat.ltb_ge in Hi. rewrite Hi, Bool.andb_false_r. reflexivity.
  - unfold get2. cbn [shape].
    apply Nat.ltb_ge in Hi. rewrite Hi, Bool.andb_false_r. reflexivity.
Qed.

Lemma rbf_kernel_symmetric_f64_witness :
  F64.rbf_kernel F64.step_exp F64.R_far 1
  = inr (mk_ndarray [2; 2]%nat [1; 0; 0; 1]) /\
  forall i j,
    get2 (mk_ndarray [2; 2]%nat [1; 0; 0; 1]) i j
    = get2 (mk_ndarray [2; 2]%nat [1; 0; 0; 1]) j i.
Proof.
  split; [reflexivity|].
  apply (rbf_kernel_symmetric_f64 F64.step_exp F64.R_far 1). reflexivity.
Defined.

End F64Theory.
